(** * net.js: the VPN check service

    A shallow embedding of [isVPN], [normalizeIp] and the [/scan] handler of
    [net.js], and the properties of the IP classification procedure.

    JavaScript strings are modelled as [string]: sequences of code units
    below 256 (the Latin-1 range, which holds every IP literal and every
    keyword of the list).  On that range [toLowerCase] and [trim] are the
    per-code-unit functions written below. *)

From Stdlib Require Import Strings.String Strings.Ascii.
From Stdlib Require Import Lists.List Sorting.Permutation.
From Stdlib Require Import Arith.PeanoNat NArith.BinNat Bool.Bool Lia.
Import ListNotations.

Local Open Scope string_scope.
Local Open Scope list_scope.

(** ** JavaScript string primitives used by the program *)

Module Js.

(** [c] is the lower-case form of one code unit: [A-Z], and the accented
    capitals U+00C0..U+00DE without the multiplication sign U+00D7. *)
Definition lowerUnit (c : ascii) : ascii :=
  let n := nat_of_ascii c in
  if (((65 <=? n) && (n <=? 90))
      || ((192 <=? n) && (n <=? 222) && negb (n =? 215)))%nat
  then ascii_of_nat (n + 32)
  else c.

(** [s.toLowerCase()] *)
Fixpoint toLowerCase (s : string) : string :=
  match s with
  | EmptyString => EmptyString
  | String c s' => String (lowerUnit c) (toLowerCase s')
  end.

(** White space and line terminators removed by [trim]: TAB, LF, VT, FF, CR,
    SPACE and NBSP. *)
Definition isWhite (c : ascii) : bool :=
  let n := nat_of_ascii c in
  (((9 <=? n) && (n <=? 13)) || (n =? 32) || (n =? 160))%nat.

Fixpoint trimStart (s : string) : string :=
  match s with
  | EmptyString => EmptyString
  | String c s' => if isWhite c then trimStart s' else s
  end.

Fixpoint trimEnd (s : string) : string :=
  match s with
  | EmptyString => EmptyString
  | String c s' =>
      match trimEnd s' with
      | EmptyString => if isWhite c then EmptyString else String c EmptyString
      | t => String c t
      end
  end.

(** [s.trim()] *)
Definition trim (s : string) : string := trimStart (trimEnd s).

(** [s.startsWith(p)] *)
Definition startsWith (s p : string) : bool := String.prefix p s.

(** [s.includes(k)] *)
Fixpoint includes (s k : string) : bool :=
  startsWith s k
  || match s with
     | EmptyString => false
     | String _ s' => includes s' k
     end.

(** [s.split(sep)] for a non-empty separator [sep].  [skip] counts the code
    units of a separator occurrence that are still to be passed over; the
    program's calls start with [skip = 0]. *)
Fixpoint splitFrom (sep s : string) (skip : nat) : list string :=
  match s with
  | EmptyString => [EmptyString]
  | String c s' =>
      match skip with
      | S k => splitFrom sep s' k
      | O =>
          if startsWith s sep
          then EmptyString :: splitFrom sep s' (String.length sep - 1)
          else match splitFrom sep s' 0 with
               | h :: t => String c h :: t
               | [] => [String c EmptyString]
               end
      end
  end.

Definition split (s sep : string) : list string := splitFrom sep s 0.

(** [a[i]] for an index [i] inside the array [a]; the two uses in
    [normalizeIp] are inside (see [split_cons] and [split_prefix] below). *)
Definition item (a : list string) (i : nat) : string := nth i a EmptyString.

(** [a.join(sep)] *)
Fixpoint join (sep : string) (a : list string) : string :=
  match a with
  | [] => EmptyString
  | [x] => x
  | x :: rest => x ++ sep ++ join sep rest
  end.

(** A value that is a string, [null] or [undefined]: [None] stands for the
    two empty values, which the program only ever tests for truthiness. *)
Definition value := option string.

(** [!!v]: a string is truthy when it is not empty. *)
Definition truthy (v : value) : bool :=
  match v with
  | Some s => negb (s =? "")
  | None => false
  end.

(** [a || b] *)
Definition or (a b : value) : value := if truthy a then a else b.

(** [a || d] where the last operand [d] is a string. *)
Definition orString (a : value) (d : string) : string :=
  match a with
  | Some s => if s =? "" then d else s
  | None => d
  end.

End Js.

(** ** Data model *)

(** The record the MaxMind reader returns for an address. *)
Record AsnResponse := {
  autonomous_system_number : option N;
  autonomous_system_organization : Js.value
}.

(** The four values of [result] in the JSON response:
    "Real User", "VPN User", "Localhost" and "Database Error". *)
Inductive Verdict := RealUser | VpnUser | Localhost | DatabaseError.

(** A thrown value. *)
Inductive JsError := TypeError | Exception (msg : string).

(** How an evaluation completes: with a value or with a thrown error. *)
Inductive completion (A : Type) :=
  | Normal (a : A)
  | Throw (e : JsError).
Arguments Normal {A} a.
Arguments Throw {A} e.

(** The opened database: [get] returns the record of an address, [null]
    when it has none, or throws. *)
Record Reader := { get : string -> completion (option AsnResponse) }.

(** The module-level variable [lookup]. *)
Record ServerState := { lookup : option Reader }.

(** [req.query.ip] as the query parser delivers it: a string, an array, or
    an object with its own keys ([?ip[k]=v]). *)
#[warnings="-register-all"] Inductive QueryValue :=
  | QString (s : string)
  | QArray (items : list QueryValue)
  | QObject (fields : list (string * QueryValue)).

(** The parts of a request the handler reads: [req.query.ip],
    [req.headers["x-forwarded-for"]] and [req.socket?.remoteAddress]. *)
Record Request := {
  query_ip : option QueryValue;
  x_forwarded_for : Js.value;
  remoteAddress : Js.value
}.

(** Sequencing of evaluations that may throw. *)
Definition andThen {A B} (c : completion A) (k : A -> completion B)
  : completion B :=
  match c with
  | Normal a => k a
  | Throw e => Throw e
  end.

(** ** Effects of the handler *)

(** A run from a server state: how it completed, the state it left, and the
    addresses passed to [lookup.get], in order. *)
Record Run (A : Type) := {
  result : completion A;
  final : ServerState;
  queried : list string
}.
Arguments result {A} r.
Arguments final {A} r.
Arguments queried {A} r.

Definition M (A : Type) : Type := ServerState -> Run A.

Definition ret {A} (a : A) : M A :=
  fun st => {| result := Normal a; final := st; queried := [] |}.

Definition bind {A B} (m : M A) (k : A -> M B) : M B :=
  fun st =>
    let r := m st in
    match result r with
    | Normal a =>
        let r' := k a (final r) in
        {| result := result r'; final := final r';
           queried := queried r ++ queried r' |}
    | Throw e =>
        {| result := Throw e; final := final r; queried := queried r |}
    end.

Notation "x <- m ;; k" := (bind m (fun x => k))
  (at level 61, m at next level, right associativity).

(** [try { m } catch (e) { h e }] *)
Definition tryCatch {A} (m : M A) (h : JsError -> M A) : M A :=
  fun st =>
    let r := m st in
    match result r with
    | Normal _ => r
    | Throw e =>
        let r' := h e (final r) in
        {| result := result r'; final := final r';
           queried := queried r ++ queried r' |}
    end.

(** An evaluation that touches neither the state nor the database. *)
Definition lift {A} (c : completion A) : M A :=
  fun st => {| result := c; final := st; queried := [] |}.

(** Reading the variable [lookup]. *)
Definition readLookup : M (option Reader) :=
  fun st => {| result := Normal (lookup st); final := st; queried := [] |}.

(** [lookup.get(ip)]: a call on [null] is a TypeError. *)
Definition lookupGet (ip : string) : M (option AsnResponse) :=
  fun st =>
    match lookup st with
    | Some reader =>
        {| result := get reader ip; final := st; queried := [ip] |}
    | None => {| result := Throw TypeError; final := st; queried := [] |}
    end.

(** ** The program *)

(** The state at start, and the two callbacks of [maxmind.open(DB_PATH)]. *)
Definition initialState : ServerState := {| lookup := None |}.

Definition opened (outcome : completion Reader) (st : ServerState)
  : ServerState :=
  match outcome with
  | Normal l => {| lookup := Some l |}
  | Throw _ => st
  end.

Definition vpnKeywords : list string := [
  "vpn"; "proxy"; "hosting"; "datacenter"; "cloud";
  "expressvpn"; "nordvpn"; "surfshark"; "cyberghost";
  "private internet access"; "ipvanish"; "vyprvpn";
  "windscribe"; "tunnelbear"; "protonvpn"; "mullvad";
  "amazon"; "aws"; "digitalocean"; "ovh"; "hetzner";
  "google cloud"; "microsoft"; "azure"; "linode"
].

(** [isVPN] with the keyword list as a parameter. *)
Definition isVPNWith (keywords : list string) (asnInfo : option AsnResponse)
  : bool :=
  match asnInfo with
  | None => false
  | Some info =>
      let org :=
        Js.toLowerCase (Js.orString (autonomous_system_organization info) "") in
      existsb (fun keyword => Js.includes org keyword) keywords
  end.

Definition isVPN (asnInfo : option AsnResponse) : bool :=
  isVPNWith vpnKeywords asnInfo.

(** The two rewriting statements of [normalizeIp]. *)
Definition firstHop (ip : string) : string :=
  if Js.includes ip "," then Js.trim (Js.item (Js.split ip ",") 0) else ip.

Definition unmapped (ip : string) : string :=
  if Js.startsWith ip "::ffff:" then Js.item (Js.split ip "::ffff:") 1 else ip.

Definition normalizeIp (ipRaw : string) : Js.value :=
  if ipRaw =? "" then None
  else
    let ip := ipRaw in
    let ip := firstHop ip in
    let ip := unmapped ip in
    if (ip =? "::1") || (ip =? "127.0.0.1") then None else Some ip.

(** The object has an own key [key]. *)
Definition hasOwn (fields : list (string * QueryValue)) (key : string) : bool :=
  existsb (fun kv => fst kv =? key) fields.

(** [String(req.query.ip)].  An array is joined with commas, its elements
    converted in order.  An object gives "[object Object]" by the inherited
    [toString]; an own key [toString] holds a parsed value, which is not
    callable, and the conversion throws a TypeError. *)
Fixpoint queryString (q : QueryValue) : completion string :=
  match q with
  | QString s => Normal s
  | QArray items =>
      andThen
        ((fix each (l : list QueryValue) : completion (list string) :=
            match l with
            | [] => Normal []
            | x :: rest =>
                andThen (queryString x) (fun piece =>
                andThen (each rest) (fun pieces =>
                Normal (piece :: pieces)))
            end) items)
        (fun pieces => Normal (Js.join "," pieces))
  | QObject fields =>
      if hasOwn fields "toString" then Throw TypeError
      else Normal "[object Object]"
  end.

(** Truthiness of a present [req.query.ip]: arrays and objects are truthy. *)
Definition queryTruthy (q : QueryValue) : bool :=
  match q with
  | QString s => negb (s =? "")
  | _ => true
  end.

Definition ipParam (req : Request) : completion Js.value :=
  match query_ip req with
  | Some q =>
      if queryTruthy q
      then andThen (queryString q) (fun s => Normal (Some (Js.trim s)))
      else Normal None
  | None => Normal None
  end.

Definition remoteHeader (req : Request) : Js.value :=
  Js.or (x_forwarded_for req) None.

Definition socketAddr (req : Request) : Js.value :=
  Js.or (remoteAddress req) None.

Definition ipToUse (req : Request) : completion Js.value :=
  andThen (ipParam req) (fun ipParam =>
  Normal
    (Js.or ipParam
       (normalizeIp
          (Js.orString (Js.or (remoteHeader req) (socketAddr req)) "")))).

(** [app.get("/scan", ...)], with the keyword list of [isVPN] as a
    parameter. *)
Definition scanWith (keywords : list string) (req : Request) : M Verdict :=
  l <- readLookup ;;
  match l with
  | None => ret DatabaseError
  | Some _ =>
      ipToUse <- lift (ipToUse req) ;;
      match ipToUse with
      | None => ret Localhost
      | Some ip =>
          if ip =? "" then ret Localhost
          else
            asnInfo <- tryCatch (lookupGet ip) (fun _ => ret None) ;;
            if isVPNWith keywords asnInfo then ret VpnUser else ret RealUser
      end
  end.

Definition scan (req : Request) : M Verdict := scanWith vpnKeywords req.

(** Requests handled one after the other, as long as no handler throws. *)
Fixpoint serve (reqs : list Request) : M (list Verdict) :=
  match reqs with
  | [] => ret []
  | req :: rest =>
      v <- scan req ;;
      vs <- serve rest ;;
      ret (v :: vs)
  end.

(** ** Notions used in the statements *)

(** [k] occurs in [s]. *)
Definition Substring (k s : string) : Prop :=
  exists a b, s = (a ++ k ++ b)%string.

(** [k] occurs in [s] up to the case of letters. *)
Definition SubstringNoCase (k s : string) : Prop :=
  exists a m b, s = (a ++ m ++ b)%string /\ Js.toLowerCase m = Js.toLowerCase k.

(** Every code unit of [s] is white space. *)
Fixpoint allWhite (s : string) : bool :=
  match s with
  | EmptyString => true
  | String c s' => Js.isWhite c && allWhite s'
  end.

(** [t] neither starts nor ends with white space. *)
Definition StartsClean (t : string) : Prop :=
  forall c t', t = String c t' -> Js.isWhite c = false.

Definition EndsClean (t : string) : Prop :=
  forall t' c, t = (t' ++ String c EmptyString)%string -> Js.isWhite c = false.

(** [t] is [a] without the white space around it. *)
Definition Trimmed (a t : string) : Prop :=
  exists l r, a = (l ++ t ++ r)%string
    /\ allWhite l = true /\ allWhite r = true
    /\ StartsClean t /\ EndsClean t.

(** The last two statements of [normalizeIp], on the rewritten address. *)
Definition afterFirstHop (ip : string) : Js.value :=
  let ip := unmapped ip in
  if (ip =? "::1") || (ip =? "127.0.0.1") then None else Some ip.

(** The IPv4-mapped rule read as "the prefix is stripped and the rest is
    returned", at the input [s]. *)
Definition MappedClaim (s : string) : Prop :=
  Js.startsWith s "::ffff:" = true ->
  Js.includes s "," = false ->
  forall r, s = ("::ffff:" ++ r)%string -> normalizeIp s = Some r.

(** The record [lookup.get] hands to [isVPN]: a thrown error leaves [null]. *)
Definition caught (c : completion (option AsnResponse)) : option AsnResponse :=
  match c with
  | Normal a => a
  | Throw _ => None
  end.

(** Sample data for the checks below. *)
Definition sampleReader : Reader :=
  {| get := fun ip =>
       if ip =? "185.159.157.1"
       then Normal (Some {| autonomous_system_number := Some 19905%N;
                            autonomous_system_organization :=
                              Some "Proton VPN Hosting AG" |})
       else if ip =? "8.8.8.8"
       then Normal (Some {| autonomous_system_number := Some 15169%N;
                            autonomous_system_organization := Some "GOOGLE" |})
       else if ip =? "10.0.0.1"
       then Normal (Some {| autonomous_system_number := None;
                            autonomous_system_organization := Some "" |})
       else if ip =? "not an ip" then Throw (Exception "invalid address")
       else Normal None |}.

Definition loaded : ServerState := opened (Normal sampleReader) initialState.

Definition viaQuery (ip : string) : Request :=
  {| query_ip := Some (QString ip);
     x_forwarded_for := None;
     remoteAddress := Some "::ffff:127.0.0.1" |}.

Definition viaHeader (h : string) : Request :=
  {| query_ip := None;
     x_forwarded_for := Some h;
     remoteAddress := Some "::1" |}.

(** The keyword list without the five keywords that contain another one
    ("vpn" or "cloud"). *)
Definition coreKeywords : list string := [
  "vpn"; "proxy"; "hosting"; "datacenter"; "cloud";
  "surfshark"; "cyberghost";
  "private internet access"; "ipvanish";
  "windscribe"; "tunnelbear"; "mullvad";
  "amazon"; "aws"; "digitalocean"; "ovh"; "hetzner";
  "microsoft"; "azure"; "linode"
].

(** Every keyword of [l1] contains a keyword of [l2]. *)
Definition covered (l1 l2 : list string) : bool :=
  forallb (fun k1 => existsb (fun k2 => Js.includes k1 k2) l2) l1.

(** The request [req] arriving from another socket address, and without its
    query parameter. *)
Definition withSocket (req : Request) (addr : Js.value) : Request :=
  {| query_ip := query_ip req;
     x_forwarded_for := x_forwarded_for req;
     remoteAddress := addr |}.

Definition withoutQuery (req : Request) : Request :=
  {| query_ip := None;
     x_forwarded_for := x_forwarded_for req;
     remoteAddress := remoteAddress req |}.

(** The request of [?ip[toString]=x]. *)
Definition viaToString : Request :=
  {| query_ip := Some (QObject [("toString", QString "x")]);
     x_forwarded_for := None;
     remoteAddress := Some "203.0.113.7" |}.

(** [String(req.query.ip)] returns for the request (or is not evaluated). *)
Definition paramReturns (req : Request) : bool :=
  match ipParam req with
  | Normal _ => true
  | Throw _ => false
  end.

(** ** Checks on concrete inputs *)

Example toLowerCase_ex : Js.toLowerCase "Google CLOUD" = "google cloud".
Proof. reflexivity. Qed.

Example trim_ex : Js.trim "  1.2.3.4 " = "1.2.3.4".
Proof. reflexivity. Qed.

Example split_ex1 :
  Js.split "1.1.1.1, 2.2.2.2,3" "," = ["1.1.1.1"; " 2.2.2.2"; "3"].
Proof. reflexivity. Qed.

Example split_ex2 : Js.split "::ffff:8.8.8.8" "::ffff:" = [""; "8.8.8.8"].
Proof. reflexivity. Qed.

Example split_ex3 : Js.split "::ffff:::ffff:" "::ffff:" = [""; ""; ""].
Proof. reflexivity. Qed.

Example includes_ex : Js.includes "amazon.com, inc." "amazon" = true.
Proof. reflexivity. Qed.

Example normalizeIp_ex1 : normalizeIp "10.0.0.1 , 10.0.0.2" = Some "10.0.0.1".
Proof. reflexivity. Qed.

Example normalizeIp_ex2 : normalizeIp "::ffff:" = Some "".
Proof. reflexivity. Qed.

Example queryString_ex :
  queryString (QArray [QString "a"; QArray [QString "b"; QString "c"];
                       QObject [("valueOf", QString "x")]])
  = Normal "a,b,c,[object Object]".
Proof. reflexivity. Qed.

Example queryString_ex2 :
  queryString (QArray [QString "a"; QObject [("toString", QString "x")]])
  = Throw TypeError.
Proof. reflexivity. Qed.

Example scan_ex6 :
  scan viaToString loaded
  = {| result := Throw TypeError; final := loaded; queried := [] |}.
Proof. reflexivity. Qed.

Example scan_ex7 :
  scan viaToString initialState
  = {| result := Normal DatabaseError; final := initialState;
       queried := [] |}.
Proof. reflexivity. Qed.

Example scan_ex1 :
  scan (viaQuery "8.8.8.8") loaded
  = {| result := Normal RealUser; final := loaded; queried := ["8.8.8.8"] |}.
Proof. reflexivity. Qed.

Example scan_ex2 :
  scan (viaQuery "185.159.157.1") loaded
  = {| result := Normal VpnUser; final := loaded;
       queried := ["185.159.157.1"] |}.
Proof. reflexivity. Qed.

Example scan_ex3 :
  scan (viaHeader "::ffff:127.0.0.1") loaded
  = {| result := Normal Localhost; final := loaded; queried := [] |}.
Proof. reflexivity. Qed.

Example scan_ex4 :
  scan (viaHeader " , 8.8.8.8") loaded
  = {| result := Normal Localhost; final := loaded; queried := [] |}.
Proof. reflexivity. Qed.

Example scan_ex5 :
  scan (viaHeader "127.0.0.1 ") loaded
  = {| result := Normal RealUser; final := loaded;
       queried := ["127.0.0.1 "] |}.
Proof. reflexivity. Qed.

(** ** Facts about the string primitives *)

Section StringFacts.

Local Open Scope string_scope.

Lemma append_assoc (a b c : string) : (a ++ b) ++ c = a ++ b ++ c.
Proof. induction a as [|x a IH]; simpl; [reflexivity | now rewrite IH]. Qed.

(** [startsWith] decides being a prefix. *)
Lemma startsWith_spec (s p : string) :
  Js.startsWith s p = true <-> exists r, s = p ++ r.
Proof.
  unfold Js.startsWith. revert s.
  induction p as [|c p IH]; intros s; simpl.
  - split; [intros _; now exists s | intros _; now destruct s].
  - destruct s as [|d s]; simpl.
    + split; [discriminate | intros [r Hr]; discriminate].
    + destruct (ascii_dec c d) as [Hcd|Hcd].
      * rewrite IH. split; intros [r Hr]; exists r.
        -- now rewrite Hr, Hcd.
        -- now injection Hr.
      * split; [discriminate | intros [r Hr]; injection Hr; congruence].
Qed.

Lemma startsWith_append (p r : string) : Js.startsWith (p ++ r) p = true.
Proof. apply startsWith_spec. now exists r. Qed.

(** [includes] decides occurrence as a substring. *)
Lemma includes_spec (s k : string) :
  Js.includes s k = true <-> Substring k s.
Proof.
  unfold Substring. induction s as [|c s IH]; cbn [Js.includes].
  - rewrite orb_false_r, startsWith_spec. split.
    + intros [r Hr]. now exists "", r.
    + intros [a [b Hab]]. destruct a; [now exists b | discriminate].
  - rewrite orb_true_iff, IH, startsWith_spec. split.
    + intros [[r Hr] | [a [b Hab]]].
      * now exists "", r.
      * exists (String c a), b. simpl. now rewrite Hab.
    + intros [a [b Hab]]. destruct a as [|d a]; simpl in Hab.
      * left. now exists b.
      * right. exists a, b. now injection Hab.
Qed.

(** [toLowerCase] works unit by unit. *)
Lemma toLowerCase_append (a b : string) :
  Js.toLowerCase (a ++ b) = Js.toLowerCase a ++ Js.toLowerCase b.
Proof. induction a as [|c a IH]; simpl; [reflexivity | now rewrite IH]. Qed.

Lemma toLowerCase_split (s x y : string) :
  Js.toLowerCase s = x ++ y ->
  exists s1 s2, s = s1 ++ s2 /\ Js.toLowerCase s1 = x /\ Js.toLowerCase s2 = y.
Proof.
  revert s. induction x as [|c x IH]; intros s H; simpl in H.
  - now exists "", s.
  - destruct s as [|d s]; simpl in H; [discriminate|].
    injection H as Hc Hs. destruct (IH s Hs) as [s1 [s2 [E [H1 H2]]]].
    exists (String d s1), s2. simpl. now rewrite E, H1, Hc.
Qed.

(** For a keyword already in lower case, occurring in the lower-cased string
    is occurring up to case. *)
Lemma Substring_toLowerCase (k s : string) :
  Js.toLowerCase k = k ->
  (Substring k (Js.toLowerCase s) <-> SubstringNoCase k s).
Proof.
  intros Hk. unfold Substring, SubstringNoCase. split.
  - intros [a [b H]].
    destruct (toLowerCase_split _ _ _ H) as [s1 [s' [E1 [Ha H']]]].
    destruct (toLowerCase_split _ _ _ H') as [m [s3 [E2 [Hm Hb]]]].
    exists s1, m, s3. split; [now rewrite E1, E2 | now rewrite Hk].
  - intros [a [m [b [E Hm]]]].
    exists (Js.toLowerCase a), (Js.toLowerCase b).
    now rewrite E, !toLowerCase_append, Hm, Hk.
Qed.

(** *** trim *)

Lemma trimStart_spec (s : string) :
  exists l, s = l ++ Js.trimStart s /\ allWhite l = true
    /\ StartsClean (Js.trimStart s).
Proof.
  induction s as [|c s [l [E [Hl Hc]]]]; simpl.
  - exists "". repeat split. intros c t' H. discriminate.
  - destruct (Js.isWhite c) eqn:Hw.
    + exists (String c l). simpl. rewrite Hw, Hl, <- E. now repeat split.
    + exists "". repeat split. intros d t' H. now injection H as <- _.
Qed.

Lemma trimEnd_spec (s : string) :
  exists r, s = Js.trimEnd s ++ r /\ allWhite r = true
    /\ EndsClean (Js.trimEnd s).
Proof.
  induction s as [|c s [r [E [Hr Hc]]]]; simpl.
  - exists "". repeat split. intros [|d t'] x H; discriminate.
  - destruct (Js.trimEnd s) as [|d t] eqn:Ht.
    + simpl in E. subst r. destruct (Js.isWhite c) eqn:Hw.
      * exists (String c s). simpl. rewrite Hw, Hr. repeat split.
        intros [|e t'] x H; discriminate.
      * exists s. repeat split; trivial.
        intros [|e t'] x H; simpl in H.
        -- now injection H as <-.
        -- injection H as _ H. destruct t'; discriminate.
    + exists r. simpl. rewrite E at 1. repeat split; trivial.
      intros [|e t'] x H; simpl in H.
      * discriminate.
      * injection H as _ H. now apply (Hc t' x).
Qed.

Lemma EndsClean_suffix (l v : string) : EndsClean (l ++ v) -> EndsClean v.
Proof.
  intros H t' c E. apply (H (l ++ t') c). now rewrite E, append_assoc.
Qed.

(** [trim] removes the white space around a string, and nothing else. *)
Lemma trim_spec (s : string) : Trimmed s (Js.trim s).
Proof.
  unfold Js.trim.
  destruct (trimEnd_spec s) as [r [Er [Hr Hc]]].
  destruct (trimStart_spec (Js.trimEnd s)) as [l [El [Hl Hs]]].
  exists l, r. repeat split; trivial.
  - rewrite <- append_assoc, <- El. exact Er.
  - apply (EndsClean_suffix l). now rewrite <- El.
Qed.

Lemma trimEnd_append_white (x r : string) :
  allWhite r = true -> Js.trimEnd (x ++ r) = Js.trimEnd x.
Proof.
  intros Hr. induction x as [|c x IH]; simpl.
  - induction r as [|d r IHr]; simpl; [reflexivity|].
    simpl in Hr. apply andb_true_iff in Hr as [Hd Hr].
    now rewrite (IHr Hr), Hd.
  - now rewrite IH.
Qed.

Lemma trimEnd_clean (t : string) : EndsClean t -> Js.trimEnd t = t.
Proof.
  induction t as [|c t IH]; intros H; simpl; [reflexivity|].
  rewrite IH by (apply (EndsClean_suffix (String c "")); exact H).
  destruct t; [|reflexivity].
  now rewrite (H "" c eq_refl).
Qed.

Lemma trimEnd_append_clean (l t : string) :
  EndsClean t -> t <> "" -> Js.trimEnd (l ++ t) = l ++ t.
Proof.
  intros Hc Hne. induction l as [|c l IH]; simpl.
  - now apply trimEnd_clean.
  - rewrite IH. destruct (l ++ t) eqn:E; [|reflexivity].
    destruct l; simpl in E; [contradiction | discriminate].
Qed.

Lemma trimStart_append_white (l t : string) :
  allWhite l = true -> Js.trimStart (l ++ t) = Js.trimStart t.
Proof.
  induction l as [|c l IH]; simpl; intros H; [reflexivity|].
  apply andb_true_iff in H as [Hc Hl]. now rewrite Hc, IH.
Qed.

Lemma trimStart_clean (t : string) : StartsClean t -> Js.trimStart t = t.
Proof.
  destruct t as [|c t]; intros H; simpl; [reflexivity|].
  now rewrite (H c t eq_refl).
Qed.

(** What [trim] returns is the only trimmed form. *)
Lemma Trimmed_trim (a t : string) : Trimmed a t -> t = Js.trim a.
Proof.
  intros [l [r [E [Hl [Hr [Hs He]]]]]]. subst a. unfold Js.trim.
  rewrite <- append_assoc, (trimEnd_append_white _ r Hr).
  destruct t as [|c t].
  - rewrite (trimEnd_append_white l "" eq_refl).
    assert (H : Js.trimEnd l = "") by exact (trimEnd_append_white "" l Hl).
    now rewrite H.
  - rewrite (trimEnd_append_clean l _ He) by discriminate.
    now rewrite (trimStart_append_white l _ Hl), (trimStart_clean _ Hs).
Qed.

(** *** split *)

Lemma splitFrom_skip (sep x r : string) :
  Js.splitFrom sep (x ++ r) (String.length x) = Js.splitFrom sep r 0.
Proof. induction x as [|c x IH]; simpl; [reflexivity | exact IH]. Qed.

(** [split] never returns the empty array: index 0 is inside. *)
Lemma split_cons (s sep : string) :
  exists h t, Js.split s sep = h :: t.
Proof.
  unfold Js.split. generalize 0 as skip.
  induction s as [|c s IH]; intros skip; cbn [Js.splitFrom].
  - now exists "", [].
  - destruct skip as [|k]; [|apply IH].
    destruct (Js.startsWith (String c s) sep).
    + eexists _, _. reflexivity.
    + destruct (Js.splitFrom sep s 0); eexists _, _; reflexivity.
Qed.

(** After a leading separator comes the split of the rest: index 1 is
    inside. *)
Lemma split_prefix (c : ascii) (sep' r : string) :
  Js.split (String c sep' ++ r) (String c sep')
  = "" :: Js.split r (String c sep').
Proof.
  unfold Js.split.
  change (Js.splitFrom (String c sep') (String c sep' ++ r) 0)
    with (if Js.startsWith (String c sep' ++ r) (String c sep')
          then "" :: Js.splitFrom (String c sep') (sep' ++ r)
                       (String.length (String c sep') - 1)
          else match Js.splitFrom (String c sep') (sep' ++ r) 0 with
               | h :: t => String c h :: t
               | [] => [String c ""]
               end).
  rewrite startsWith_append.
  replace (String.length (String c sep') - 1) with (String.length sep')
    by (simpl; lia).
  rewrite splitFrom_skip. reflexivity.
Qed.

(** A string without the separator is its only piece. *)
Lemma split_none (r sep : string) :
  Js.includes r sep = false -> Js.split r sep = [r].
Proof.
  unfold Js.split. induction r as [|c r IH]; cbn [Js.includes]; intros H.
  - reflexivity.
  - apply orb_false_iff in H as [Hp Hr]. cbn [Js.splitFrom].
    rewrite Hp, (IH Hr). reflexivity.
Qed.

Lemma startsWith_unit (c d : ascii) (x : string) :
  Js.startsWith (String c x) (String d "") = (d =? c)%char.
Proof.
  unfold Js.startsWith. simpl. destruct (ascii_dec d c) as [E|E].
  - rewrite E, Ascii.eqb_refl. now destruct x.
  - symmetry. now apply Ascii.eqb_neq.
Qed.

(** The first piece of a split on a one-unit separator is what comes before
    its first occurrence. *)
Lemma split_unit_first (d : ascii) (a b : string) :
  Js.includes a (String d "") = false ->
  Js.split (a ++ String d "" ++ b) (String d "")
  = a :: Js.split b (String d "").
Proof.
  induction a as [|c a IH]; cbn [Js.includes]; intros H.
  - apply (split_prefix d "" b).
  - apply orb_false_iff in H as [Hp Hr]. rewrite startsWith_unit in Hp.
    specialize (IH Hr). unfold Js.split in *. simpl append.
    cbn [Js.splitFrom]. rewrite startsWith_unit, Hp.
    simpl append in IH. rewrite IH. reflexivity.
Qed.

(** A string that includes a one-unit separator has a first occurrence. *)
Lemma first_occurrence (d : ascii) (s : string) :
  Js.includes s (String d "") = true ->
  exists a b, s = a ++ String d "" ++ b
    /\ Js.includes a (String d "") = false.
Proof.
  induction s as [|c s IH]; cbn [Js.includes]; intros H.
  - discriminate.
  - rewrite startsWith_unit in H. destruct (d =? c)%char eqn:E.
    + apply Ascii.eqb_eq in E. subst c. now exists "", s.
    + destruct (IH H) as [a [b [Es Ha]]].
      exists (String c a), b. split; [simpl; now rewrite Es|].
      cbn [Js.includes]. now rewrite startsWith_unit, E, Ha.
Qed.

End StringFacts.

(** ** Facts about the handler *)

Section HandlerFacts.

Variable keywords : list string.
Variables (st : ServerState) (req : Request).

(** Without a database nothing of the request is looked at. *)
Lemma scanWith_no_database :
  lookup st = None ->
  scanWith keywords req st
  = {| result := Normal DatabaseError; final := st; queried := [] |}.
Proof.
  intros H. unfold scanWith, bind, readLookup, ret. simpl. now rewrite H.
Qed.

(** With a database and no usable address the answer is Localhost, and the
    database is not asked. *)
Lemma scanWith_localhost (reader : Reader) (v : Js.value) :
  lookup st = Some reader ->
  ipToUse req = Normal v ->
  Js.truthy v = false ->
  scanWith keywords req st
  = {| result := Normal Localhost; final := st; queried := [] |}.
Proof.
  intros H Hv Hip. unfold scanWith, bind, readLookup, lift, ret. simpl.
  rewrite H, Hv. simpl.
  destruct v as [ip|]; [|reflexivity].
  simpl in Hip. apply negb_false_iff in Hip. now rewrite Hip.
Qed.

(** With a database, an error thrown while the address is determined
    escapes the handler; the database is not asked. *)
Lemma scanWith_throws (reader : Reader) (e : JsError) :
  lookup st = Some reader ->
  ipToUse req = Throw e ->
  scanWith keywords req st
  = {| result := Throw e; final := st; queried := [] |}.
Proof.
  intros H He. unfold scanWith, bind, readLookup, lift, ret. simpl.
  now rewrite H, He.
Qed.

(** With a database and a usable address, the database is asked once, for
    that address, and the answer is the keyword test on what it returns. *)
Lemma scanWith_lookup (reader : Reader) (ip : string) :
  lookup st = Some reader ->
  ipToUse req = Normal (Some ip) ->
  ip <> "" ->
  scanWith keywords req st
  = {| result :=
         Normal (if isVPNWith keywords (caught (get reader ip))
                 then VpnUser else RealUser);
       final := st;
       queried := [ip] |}.
Proof.
  intros H Hip Hne. apply String.eqb_neq in Hne.
  unfold scanWith, bind, readLookup, tryCatch, lookupGet, lift, ret. simpl.
  rewrite H, Hip. simpl. rewrite Hne. simpl. rewrite H.
  destruct (get reader ip) as [a|e]; simpl.
  - destruct (isVPNWith keywords a); reflexivity.
  - reflexivity.
Qed.

End HandlerFacts.

(** Without a usable query parameter the address comes from the header or
    the socket, through [normalizeIp]. *)
Lemma ipToUse_without_param (req : Request) (p : Js.value) :
  ipParam req = Normal p ->
  Js.truthy p = false ->
  ipToUse req
  = Normal
      (normalizeIp
         (Js.orString (Js.or (remoteHeader req) (socketAddr req)) "")).
Proof.
  intros Hp H. unfold ipToUse. rewrite Hp. cbn [andThen].
  unfold Js.or at 1. now rewrite H.
Qed.

(** Only the conversion of the query parameter can throw. *)
Lemma ipToUse_throws (req : Request) (e : JsError) :
  ipToUse req = Throw e <-> ipParam req = Throw e.
Proof.
  unfold ipToUse. destruct (ipParam req) as [p|e']; cbn [andThen];
    split; intros H; try discriminate H; exact H.
Qed.

(** The handler looks at the request only through [ipToUse]. *)
Lemma scanWith_ipToUse (keywords : list string) (r1 r2 : Request)
  (st : ServerState) :
  ipToUse r1 = ipToUse r2 -> scanWith keywords r1 st = scanWith keywords r2 st.
Proof. intros H. unfold scanWith. now rewrite H. Qed.

(** The four ways a run of the handler goes. *)
Lemma scanWith_cases (keywords : list string) (req : Request)
  (st : ServerState) :
  (lookup st = None
   /\ scanWith keywords req st
      = {| result := Normal DatabaseError; final := st; queried := [] |})
  \/ (exists e,
        lookup st <> None /\ ipToUse req = Throw e
        /\ scanWith keywords req st
           = {| result := Throw e; final := st; queried := [] |})
  \/ (exists v,
        lookup st <> None /\ ipToUse req = Normal v /\ Js.truthy v = false
        /\ scanWith keywords req st
           = {| result := Normal Localhost; final := st; queried := [] |})
  \/ (exists reader ip,
        lookup st = Some reader /\ ipToUse req = Normal (Some ip) /\ ip <> ""
        /\ scanWith keywords req st
           = {| result :=
                  Normal (if isVPNWith keywords (caught (get reader ip))
                          then VpnUser else RealUser);
                final := st; queried := [ip] |}).
Proof.
  destruct (lookup st) as [reader|] eqn:Hst.
  - right. destruct (ipToUse req) as [v|e] eqn:E.
    + right. destruct (Js.truthy v) eqn:Hv.
      * right. destruct v as [ip|]; [|discriminate].
        simpl in Hv. apply negb_true_iff, String.eqb_neq in Hv.
        exists reader, ip. repeat split; trivial.
        now apply scanWith_lookup.
      * left. exists v. repeat split; trivial; [discriminate|].
        now apply (scanWith_localhost _ _ _ reader v).
    + left. exists e. repeat split; [discriminate|].
      now apply (scanWith_throws _ _ _ reader).
  - left. split; [reflexivity|]. now apply scanWith_no_database.
Qed.

(** Keyword lists with the same test give the same handler. *)
Lemma scanWith_ext (k1 k2 : list string) (req : Request) (st : ServerState) :
  (forall a, isVPNWith k1 a = isVPNWith k2 a) ->
  scanWith k1 req st = scanWith k2 req st.
Proof.
  intros H.
  destruct (scanWith_cases k1 req st)
    as [[Hn E] | [[e [Hn [He E]]] | [[v [Hn [Hv [Ht E]]]]
                                     | [reader [ip [Hst [Hip [Hne E]]]]]]]];
    rewrite E.
  - now rewrite (scanWith_no_database _ _ _ Hn).
  - destruct (lookup st) as [reader|] eqn:Hst; [|now elim Hn].
    now rewrite (scanWith_throws _ _ _ reader e Hst He).
  - destruct (lookup st) as [reader|] eqn:Hst; [|now elim Hn].
    now rewrite (scanWith_localhost _ _ _ reader v Hst Hv Ht).
  - now rewrite (scanWith_lookup _ _ _ reader ip Hst Hip Hne), H.
Qed.

Lemma existsb_Permutation {A} (f : A -> bool) (l1 l2 : list A) :
  Permutation l1 l2 -> existsb f l1 = existsb f l2.
Proof.
  induction 1 as [|x l l' _ IH|x y l|l l' l'' _ IH1 _ IH2]; simpl.
  - reflexivity.
  - now rewrite IH.
  - now rewrite !orb_assoc, (orb_comm (f y)).
  - now rewrite IH1.
Qed.

Lemma vpnKeywords_lower (k : string) :
  In k vpnKeywords -> Js.toLowerCase k = k.
Proof.
  assert (H : forallb (fun k => Js.toLowerCase k =? k) vpnKeywords = true)
    by reflexivity.
  rewrite forallb_forall in H. intros Hk. now apply String.eqb_eq, H.
Qed.

Lemma vpnKeywords_nonempty (k : string) : In k vpnKeywords -> k <> "".
Proof.
  assert (H : forallb (fun k => negb (k =? "")) vpnKeywords = true)
    by reflexivity.
  rewrite forallb_forall in H. intros Hk.
  apply String.eqb_neq, negb_true_iff. now apply H.
Qed.

(** [isVPN] on a record is the keyword test on its lower-cased name. *)
Lemma isVPN_spec (info : AsnResponse) :
  isVPN (Some info) = true <->
  exists k, In k vpnKeywords
    /\ Substring k (Js.toLowerCase
                      (Js.orString (autonomous_system_organization info) "")).
Proof.
  unfold isVPN, isVPNWith. rewrite existsb_exists.
  split; intros [k [Hk H]]; exists k; split; trivial;
    now apply includes_spec.
Qed.

(** ** The classification procedure *)

(** C1. With the database loaded and a usable address whose record is
    [info], the answer is VpnUser exactly when some keyword of the list is a
    substring of the lower-cased organization name (the empty string when
    the attribute is absent), and RealUser in every other case; a name that
    contains a keyword up to case gives VpnUser, a name that contains none
    gives RealUser. *)
Theorem scan_keyword_test
  (st : ServerState) (reader : Reader) (req : Request) (ip : string)
  (info : AsnResponse) :
  lookup st = Some reader ->
  ipToUse req = Normal (Some ip) ->
  ip <> "" ->
  get reader ip = Normal (Some info) ->
  let name := Js.orString (autonomous_system_organization info) "" in
  let hit := exists k, In k vpnKeywords /\ Substring k (Js.toLowerCase name) in
  (result (scan req st) = Normal VpnUser <-> hit)
  /\ (~ hit -> result (scan req st) = Normal RealUser)
  /\ ((exists k, In k vpnKeywords /\ SubstringNoCase k name) ->
      result (scan req st) = Normal VpnUser)
  /\ ((forall k, In k vpnKeywords -> ~ SubstringNoCase k name) ->
      result (scan req st) = Normal RealUser).
Proof.
  intros Hst Hip Hne Hget name hit.
  unfold scan. rewrite (scanWith_lookup _ _ _ reader ip Hst Hip Hne), Hget.
  cbn [result caught].
  change (isVPNWith vpnKeywords (Some info)) with (isVPN (Some info)).
  assert (Hspec := isVPN_spec info). fold name in Hspec. fold hit in Hspec.
  assert (Hmiss : ~ hit -> isVPN (Some info) = false).
  { intros Hn. destruct (isVPN (Some info)); [|reflexivity].
    exfalso. now apply Hn, Hspec. }
  repeat split.
  - intros H. apply Hspec. now destruct (isVPN (Some info)).
  - intros H. apply Hspec in H. now rewrite H.
  - intros Hn. now rewrite (Hmiss Hn).
  - intros [k [Hk H]].
    assert (Hh : hit).
    { exists k. split; trivial.
      now apply (Substring_toLowerCase k name (vpnKeywords_lower k Hk)). }
    apply Hspec in Hh. now rewrite Hh.
  - intros Hn. rewrite Hmiss; [reflexivity|].
    intros [k [Hk H]]. apply (Hn k Hk).
    now apply (Substring_toLowerCase k name (vpnKeywords_lower k Hk)).
Qed.

Lemma scan_keyword_test_witness :
  result (scan (viaQuery "185.159.157.1") loaded) = Normal VpnUser <->
  exists k, In k vpnKeywords
    /\ Substring k (Js.toLowerCase "Proton VPN Hosting AG").
Proof.
  apply (scan_keyword_test loaded sampleReader (viaQuery "185.159.157.1")
           "185.159.157.1"
           {| autonomous_system_number := Some 19905%N;
              autonomous_system_organization :=
                Some "Proton VPN Hosting AG" |});
    [reflexivity | reflexivity | discriminate | reflexivity].
Defined.

(** C2. When the database failed to load, every request is answered
    DatabaseError, whatever its query parameter, forwarded-for header and
    socket address are; the state is left as it was and the database is not
    asked. *)
Theorem scan_database_error (req : Request) :
  scan req {| lookup := None |}
  = {| result := Normal DatabaseError;
       final := {| lookup := None |};
       queried := [] |}
  /\ forall e, scan req (opened (Throw e) initialState)
               = {| result := Normal DatabaseError;
                    final := initialState;
                    queried := [] |}.
Proof.
  split; [|intros e]; now apply scanWith_no_database.
Qed.

(** C3. With the database loaded and a usable address, a missing record and
    a record whose organization name is empty get the same answer,
    RealUser: no keyword occurs in the empty string. *)
Theorem scan_absent_or_empty
  (st : ServerState) (reader : Reader) (req : Request) (ip : string) :
  lookup st = Some reader ->
  ipToUse req = Normal (Some ip) ->
  ip <> "" ->
  (get reader ip = Normal None
   \/ exists asn, get reader ip
        = Normal (Some {| autonomous_system_number := asn;
                          autonomous_system_organization := Some "" |})) ->
  result (scan req st) = Normal RealUser
  /\ (forall k, In k vpnKeywords -> Js.includes "" k = false).
Proof.
  intros Hst Hip Hne Hget. split.
  - unfold scan. rewrite (scanWith_lookup _ _ _ reader ip Hst Hip Hne).
    destruct Hget as [-> | [asn ->]]; reflexivity.
  - intros k Hk. apply vpnKeywords_nonempty in Hk.
    destruct k; [contradiction | reflexivity].
Qed.

Lemma scan_absent_or_empty_witness :
  result (scan (viaQuery "10.0.0.1") loaded) = Normal RealUser
  /\ result (scan (viaQuery "10.0.0.2") loaded) = Normal RealUser.
Proof.
  split.
  - apply (scan_absent_or_empty loaded sampleReader (viaQuery "10.0.0.1")
             "10.0.0.1");
      [reflexivity | reflexivity | discriminate |].
    right. exists None. reflexivity.
  - apply (scan_absent_or_empty loaded sampleReader (viaQuery "10.0.0.2")
             "10.0.0.2");
      [reflexivity | reflexivity | discriminate |].
    left. reflexivity.
Defined.

(** C4. With the database loaded and a usable address, an error thrown by
    the lookup is caught: the handler completes normally with RealUser, and
    the whole run is the one of a database that has no record for the
    address. *)
Theorem scan_lookup_throws
  (st : ServerState) (reader : Reader) (req : Request) (ip : string)
  (e : JsError) :
  lookup st = Some reader ->
  ipToUse req = Normal (Some ip) ->
  ip <> "" ->
  get reader ip = Throw e ->
  result (scan req st) = Normal RealUser
  /\ queried (scan req st) = [ip]
  /\ forall reader', get reader' ip = Normal None ->
       result (scan req {| lookup := Some reader' |}) = result (scan req st)
       /\ queried (scan req {| lookup := Some reader' |})
          = queried (scan req st).
Proof.
  intros Hst Hip Hne Hget. unfold scan.
  rewrite (scanWith_lookup _ _ _ reader ip Hst Hip Hne), Hget.
  repeat split;
    rewrite (scanWith_lookup _ {| lookup := Some reader' |} _ reader' ip
               eq_refl Hip Hne), H; reflexivity.
Qed.

Lemma scan_lookup_throws_witness :
  result (scan (viaQuery "not an ip") loaded) = Normal RealUser
  /\ queried (scan (viaQuery "not an ip") loaded) = ["not an ip"].
Proof.
  destruct (scan_lookup_throws loaded sampleReader (viaQuery "not an ip")
              "not an ip" (Exception "invalid address"))
    as [H1 [H2 _]];
    [reflexivity | reflexivity | discriminate | reflexivity |].
  split; [exact H1 | exact H2].
Defined.

(** C5. When the raw address is a loopback literal after the comma and
    prefix statements, [normalizeIp] returns [null]; a request without a
    usable query parameter whose raw address it is gets Localhost, and the
    database is not asked. *)
Theorem normalizeIp_loopback (raw : string) :
  unmapped (firstHop raw) = "127.0.0.1" \/ unmapped (firstHop raw) = "::1" ->
  normalizeIp raw = None
  /\ forall st reader req ipParam0,
       lookup st = Some reader ->
       ipParam req = Normal ipParam0 ->
       Js.truthy ipParam0 = false ->
       Js.orString (Js.or (remoteHeader req) (socketAddr req)) "" = raw ->
       scan req st
       = {| result := Normal Localhost; final := st; queried := [] |}.
Proof.
  intros H.
  assert (Hn : normalizeIp raw = None).
  { unfold normalizeIp. destruct (raw =? ""); [reflexivity|].
    destruct H as [-> | ->]; reflexivity. }
  split; [exact Hn|].
  intros st reader req p Hst Hp Hq Hraw.
  apply (scanWith_localhost _ _ _ reader None Hst); [|reflexivity].
  now rewrite (ipToUse_without_param req p Hp Hq), Hraw, Hn.
Qed.

Lemma normalizeIp_loopback_witness :
  normalizeIp "::ffff:127.0.0.1, 10.1.1.1" = None
  /\ scan (viaHeader "::ffff:127.0.0.1, 10.1.1.1") loaded
     = {| result := Normal Localhost; final := loaded; queried := [] |}.
Proof.
  destruct (normalizeIp_loopback "::ffff:127.0.0.1, 10.1.1.1") as [H1 H2];
    [left; reflexivity|].
  split; [exact H1|].
  apply (H2 loaded sampleReader _ None); reflexivity.
Defined.

(** C6 as stated fails.  The IPv4-mapped rule does not hold as "strip the
    prefix and return the rest": a mapped loopback address gives [null], and
    a rest that holds the prefix again is cut at that place. *)
Lemma normalizeIp_mapped_counterexample :
  ~ MappedClaim "::ffff:127.0.0.1"
  /\ ~ MappedClaim "::ffff:1.1.1.1::ffff:2.2.2.2".
Proof.
  split; intros H.
  - specialize (H eq_refl eq_refl "127.0.0.1" eq_refl). discriminate H.
  - specialize (H eq_refl eq_refl "1.1.1.1::ffff:2.2.2.2" eq_refl).
    discriminate H.
Qed.

(** C6 (amended). For an input without a comma that is the prefix
    ["::ffff:"] followed by a rest in which the prefix does not occur again,
    [normalizeIp] strips the prefix: it returns the rest, or [null] when the
    rest is a loopback literal. *)
Theorem normalizeIp_mapped (r : string) :
  Js.includes ("::ffff:" ++ r) "," = false ->
  Js.includes r "::ffff:" = false ->
  normalizeIp ("::ffff:" ++ r)
  = if (r =? "::1") || (r =? "127.0.0.1") then None else Some r.
Proof.
  intros Hcomma Hagain.
  assert (Hu : unmapped (firstHop ("::ffff:" ++ r)) = r).
  { unfold firstHop. rewrite Hcomma. unfold unmapped.
    rewrite startsWith_append.
    rewrite (split_prefix ":" ":ffff:" r), (split_none r _ Hagain).
    reflexivity. }
  unfold normalizeIp.
  change ("::ffff:" ++ r =? "") with false. cbv zeta. now rewrite Hu.
Qed.

Lemma normalizeIp_mapped_witness :
  normalizeIp "::ffff:8.8.8.8" = Some "8.8.8.8".
Proof.
  apply (normalizeIp_mapped "8.8.8.8"); reflexivity.
Defined.

(** C7. For an input with a comma, [normalizeIp] goes on (prefix and
    loopback statements) from what stands before the first comma, without
    the white space around it. *)
Theorem normalizeIp_forwarded_list (s : string) :
  Js.includes s "," = true ->
  exists a b t,
    s = (a ++ "," ++ b)%string
    /\ Js.includes a "," = false
    /\ Trimmed a t
    /\ (forall t', Trimmed a t' -> t' = t)
    /\ normalizeIp s = afterFirstHop t.
Proof.
  intros H. destruct (first_occurrence _ _ H) as [a [b [E Ha]]].
  exists a, b, (Js.trim a).
  split; [exact E | split; [exact Ha | split; [|split]]].
  - apply trim_spec.
  - apply Trimmed_trim.
  - assert (Hf : firstHop s = Js.trim a).
    { unfold firstHop. rewrite H, E, (split_unit_first _ a b Ha).
      reflexivity. }
    unfold normalizeIp, afterFirstHop.
    replace (s =? "") with false
      by (symmetry; apply String.eqb_neq; rewrite E; now destruct a).
    cbv zeta. now rewrite Hf.
Qed.

Lemma normalizeIp_forwarded_list_witness :
  exists a b t,
    " 203.0.113.7 , 10.0.0.1,10.0.0.2" = (a ++ "," ++ b)%string
    /\ Js.includes a "," = false
    /\ Trimmed a t
    /\ (forall t', Trimmed a t' -> t' = t)
    /\ normalizeIp " 203.0.113.7 , 10.0.0.1,10.0.0.2" = afterFirstHop t.
Proof.
  apply (normalizeIp_forwarded_list " 203.0.113.7 , 10.0.0.1,10.0.0.2").
  reflexivity.
Defined.

(** C8. The answer does not depend on the order of the keyword list: with
    any permutation of it, [isVPN] returns the same boolean on every record
    and the handler makes the same run on every request. *)
Theorem keyword_order_irrelevant (keywords : list string) :
  Permutation vpnKeywords keywords ->
  (forall asnInfo, isVPNWith keywords asnInfo = isVPN asnInfo)
  /\ (forall req st, scanWith keywords req st = scan req st).
Proof.
  intros HP.
  assert (Hv : forall asnInfo, isVPNWith keywords asnInfo = isVPN asnInfo).
  { intros [info|]; [|reflexivity]. unfold isVPN, isVPNWith.
    symmetry. now apply existsb_Permutation. }
  split; [exact Hv|].
  intros req st. unfold scan. apply scanWith_ext. exact Hv.
Qed.

Lemma keyword_order_irrelevant_witness :
  Permutation vpnKeywords (rev vpnKeywords)
  /\ isVPNWith (rev vpnKeywords) (caught (get sampleReader "185.159.157.1"))
     = isVPN (caught (get sampleReader "185.159.157.1"))
  /\ scanWith (rev vpnKeywords) (viaQuery "185.159.157.1") loaded
     = scan (viaQuery "185.159.157.1") loaded.
Proof.
  assert (HP : Permutation vpnKeywords (rev vpnKeywords))
    by apply Permutation_rev.
  destruct (keyword_order_irrelevant (rev vpnKeywords) HP) as [H1 H2].
  split; [exact HP | split; [apply H1 | apply H2]].
Defined.

Lemma bind_normal {A B} (m : M A) (k : A -> M B) (st st' : ServerState)
  (a : A) (q : list string) :
  m st = {| result := Normal a; final := st'; queried := q |} ->
  bind m k st
  = {| result := result (k a st'); final := final (k a st');
       queried := q ++ queried (k a st') |}.
Proof. intros H. unfold bind. now rewrite H. Qed.

(** The handler leaves the state as it was. *)
Lemma scan_final (req : Request) (st : ServerState) :
  final (scan req st) = st.
Proof.
  unfold scan.
  destruct (scanWith_cases vpnKeywords req st)
    as [[_ E] | [[e [_ [_ E]]] | [[v [_ [_ [_ E]]]]
                                  | [reader [ip [_ [_ [_ E]]]]]]]];
    now rewrite E.
Qed.

(** When the conversion of the query parameter returns, the handler
    completes normally. *)
Lemma scan_returns (req : Request) (st : ServerState) :
  paramReturns req = true ->
  exists v q,
    scan req st = {| result := Normal v; final := st; queried := q |}.
Proof.
  intros Hp. unfold scan.
  destruct (scanWith_cases vpnKeywords req st)
    as [[_ E] | [[e [_ [He E]]] | [[v [_ [_ [_ E]]]]
                                   | [reader [ip [_ [_ [_ E]]]]]]]];
    rewrite E; try (eexists _, _; reflexivity).
  apply ipToUse_throws in He. unfold paramReturns in Hp.
  rewrite He in Hp. discriminate Hp.
Qed.

Lemma serve_final (reqs : list Request) (st : ServerState) :
  final (serve reqs st) = st.
Proof.
  induction reqs as [|req rest IH]; [reflexivity|].
  change (serve (req :: rest))
    with (v <- scan req ;; vs <- serve rest ;; ret (v :: vs)).
  unfold bind at 1.
  assert (Hf := scan_final req st).
  destruct (scan req st) as [[v|e] fin q]; cbn [result final] in *;
    [|exact Hf].
  subst fin. unfold bind.
  destruct (serve rest st) as [[vs|e] fin' q']; cbn [result final ret] in *;
    exact IH.
Qed.

(** Each answer of a sequence of requests is the answer the request gets
    alone, and the sequence leaves the state as it was. *)
Lemma serve_pointwise (reqs : list Request) (st : ServerState) :
  forallb paramReturns reqs = true ->
  exists vs,
    result (serve reqs st) = Normal vs
    /\ Forall2 (fun r v => result (scan r st) = Normal v) reqs vs.
Proof.
  induction reqs as [|req rest IH]; intros Hp.
  - exists []. split; [reflexivity | constructor].
  - cbn [forallb] in Hp. apply andb_true_iff in Hp as [Hreq Hrest].
    destruct (IH Hrest) as [vs [Hr Hall]].
    destruct (scan_returns req st Hreq) as [v [q Hs]].
    exists (v :: vs).
    change (serve (req :: rest))
      with (v <- scan req ;; vs <- serve rest ;; ret (v :: vs)).
    rewrite (bind_normal _ _ _ _ _ _ Hs). cbn [result final].
    assert (Hf := serve_final rest st).
    destruct (serve rest st) as [res fin qs] eqn:Hrest'.
    cbn [result final] in Hr, Hf. subst res fin.
    rewrite (bind_normal _ _ _ _ _ _ Hrest'). cbn [result final ret].
    split; [reflexivity|].
    constructor; [now rewrite Hs | exact Hall].
Qed.

(** C9. The outcome is a function of whether the database is loaded, of
    the address the request comes down to, and of what the lookup returns
    for it: two requests for which these agree get the same answer.
    Handling a request leaves the server state as it was, so that in any
    sequence of requests whose query parameter converts to a string each
    one gets the answer it gets alone. *)
Theorem scan_deterministic
  (st1 st2 : ServerState) (r1 r2 : Request) (reqs : list Request) :
  (lookup st1 = None <-> lookup st2 = None) ->
  ipToUse r1 = ipToUse r2 ->
  (forall reader1 reader2 ip,
     lookup st1 = Some reader1 -> lookup st2 = Some reader2 ->
     ipToUse r1 = Normal (Some ip) -> get reader1 ip = get reader2 ip) ->
  result (scan r1 st1) = result (scan r2 st2)
  /\ final (scan r1 st1) = st1
  /\ final (serve reqs st1) = st1
  /\ (forallb paramReturns reqs = true ->
      exists vs,
        result (serve reqs st1) = Normal vs
        /\ Forall2 (fun r v => result (scan r st1) = Normal v) reqs vs).
Proof.
  intros Hready Hip Hget.
  split; [|split; [apply scan_final
                  | split; [apply serve_final | apply serve_pointwise]]].
  unfold scan. destruct (lookup st2) as [rd2|] eqn:H2.
  - destruct (scanWith_cases vpnKeywords r1 st1)
      as [[Hn E] | [[e [_ [He E]]] | [[v [_ [Hv [Ht E]]]]
                                     | [rd1 [ip [H1 [Hi [Hne E]]]]]]]];
      rewrite E; cbn [result].
    + apply Hready in Hn. discriminate Hn.
    + rewrite Hip in He. now rewrite (scanWith_throws _ _ _ rd2 e H2 He).
    + rewrite Hip in Hv.
      now rewrite (scanWith_localhost _ _ _ rd2 v H2 Hv Ht).
    + rewrite (Hget rd1 rd2 ip H1 eq_refl Hi). rewrite Hip in Hi.
      now rewrite (scanWith_lookup _ _ _ rd2 ip H2 Hi Hne).
  - assert (H1 : lookup st1 = None) by now apply Hready.
    now rewrite (scanWith_no_database _ _ _ H1),
                (scanWith_no_database _ _ _ H2).
Qed.

Lemma scan_deterministic_witness :
  result (scan (viaQuery "8.8.8.8") loaded)
  = result (scan (viaHeader "8.8.8.8, 10.0.0.1") loaded)
  /\ final (scan (viaQuery "8.8.8.8") loaded) = loaded
  /\ final (serve [viaQuery "8.8.8.8"; viaQuery "8.8.8.8"] loaded) = loaded
  /\ exists vs,
       result (serve [viaQuery "8.8.8.8"; viaQuery "8.8.8.8"] loaded)
       = Normal vs
       /\ Forall2 (fun r v => result (scan r loaded) = Normal v)
            [viaQuery "8.8.8.8"; viaQuery "8.8.8.8"] vs.
Proof.
  destruct (scan_deterministic loaded loaded (viaQuery "8.8.8.8")
              (viaHeader "8.8.8.8, 10.0.0.1")
              [viaQuery "8.8.8.8"; viaQuery "8.8.8.8"])
    as [H1 [H2 [H3 H4]]].
  - split; discriminate.
  - reflexivity.
  - intros reader1 reader2 ip E1 E2 _.
    injection E1 as <-. injection E2 as <-. reflexivity.
  - split; [exact H1 | split; [exact H2 | split; [exact H3|]]].
    apply H4. reflexivity.
Defined.

(** C10. With the database loaded, a query parameter [ip] whose string form
    is not empty after trimming is the address used, whatever the header
    and the socket say and also when it is a loopback literal: it is passed
    to the lookup as it is, and the answer is RealUser or VpnUser, never
    Localhost. *)
Theorem scan_query_override
  (st : ServerState) (reader : Reader) (req : Request) (q : QueryValue)
  (s : string) :
  lookup st = Some reader ->
  query_ip req = Some q ->
  queryString q = Normal s ->
  Js.trim s <> "" ->
  ipToUse req = Normal (Some (Js.trim s))
  /\ queried (scan req st) = [Js.trim s]
  /\ (result (scan req st) = Normal RealUser
      \/ result (scan req st) = Normal VpnUser)
  /\ result (scan req st) <> Normal Localhost.
Proof.
  intros Hst Hq Hs Hne.
  assert (Hp : ipParam req = Normal (Some (Js.trim s))).
  { unfold ipParam. rewrite Hq, Hs. cbn [andThen].
    destruct q as [s0| |]; try reflexivity.
    injection Hs as ->. simpl.
    destruct s; [now elim Hne | reflexivity]. }
  assert (Hip : ipToUse req = Normal (Some (Js.trim s))).
  { unfold ipToUse. rewrite Hp. cbn [andThen]. unfold Js.or at 1. simpl.
    apply String.eqb_neq in Hne. now rewrite Hne. }
  split; [exact Hip|].
  unfold scan. rewrite (scanWith_lookup _ _ _ reader _ Hst Hip Hne).
  cbn [result queried].
  destruct (isVPNWith vpnKeywords (caught (get reader _)));
    repeat split; auto; discriminate.
Qed.

Lemma scan_query_override_witness :
  queried (scan (viaQuery "127.0.0.1") loaded) = ["127.0.0.1"]
  /\ result (scan (viaQuery "127.0.0.1") loaded) <> Normal Localhost.
Proof.
  destruct (scan_query_override loaded sampleReader (viaQuery "127.0.0.1")
              (QString "127.0.0.1") "127.0.0.1")
    as [_ [H1 [_ H2]]];
    [reflexivity | reflexivity | reflexivity | discriminate |].
  split; [exact H1 | exact H2].
Defined.

(** ** Further properties of the program *)

Section PartsOfStrings.

Local Open Scope string_scope.

Lemma Substring_trans (k u s : string) :
  Substring k u -> Substring u s -> Substring k s.
Proof.
  intros [a [b ->]] [x [y ->]]. exists (x ++ a), (b ++ y).
  now rewrite !append_assoc.
Qed.

(** A part of a string without [k] is without [k]. *)
Lemma includes_part (s u k : string) :
  Substring u s -> Js.includes s k = false -> Js.includes u k = false.
Proof.
  intros Hu Hs. destruct (Js.includes u k) eqn:E; [|reflexivity].
  apply includes_spec in E.
  assert (H : Js.includes s k = true)
    by (apply includes_spec; exact (Substring_trans _ _ _ E Hu)).
  congruence.
Qed.

Lemma Substring_prefix (h rest : string) : Substring h (h ++ rest).
Proof. now exists "", rest. Qed.

Lemma append_empty (r : string) : r ++ "" = r.
Proof. induction r as [|c r IH]; simpl; [reflexivity | now rewrite IH]. Qed.

Lemma Substring_suffix (p r : string) : Substring r (p ++ r).
Proof. exists p, "". now rewrite append_empty. Qed.

Lemma trim_Substring (a : string) : Substring (Js.trim a) a.
Proof.
  destruct (trim_spec a) as [l [r [E _]]]. now exists l, r.
Qed.

Lemma startsWith_includes (s k : string) :
  Js.includes s k = false -> Js.startsWith s k = false.
Proof.
  destruct s; cbn [Js.includes]; intros H;
    now apply orb_false_iff in H as [H _].
Qed.

(** The first piece of a split is the part of the string before the first
    occurrence of the separator: it starts the string and is without the
    separator. *)
Lemma split_head (c : ascii) (sep' r : string) :
  exists h t rest,
    Js.split r (String c sep') = h :: t
    /\ r = h ++ rest
    /\ Js.includes h (String c sep') = false.
Proof.
  unfold Js.split. induction r as [|d r [h [t [rest [E [Er Hh]]]]]].
  - exists "", [], "". repeat split.
  - cbn [Js.splitFrom].
    destruct (Js.startsWith (String d r) (String c sep')) eqn:Hp.
    + eexists "", _, (String d r). repeat split.
    + rewrite E. exists (String d h), t, rest.
      split; [reflexivity | split; [simpl; now rewrite Er|]].
      cbn [Js.includes]. rewrite Hh, orb_false_r.
      destruct (Js.startsWith (String d h) (String c sep')) eqn:Hq;
        [|reflexivity].
      apply startsWith_spec in Hq as [x Hx].
      assert (Hr : Js.startsWith (String d r) (String c sep') = true).
      { apply startsWith_spec. exists (x ++ rest).
        rewrite <- append_assoc, <- Hx, Er. reflexivity. }
      congruence.
Qed.

End PartsOfStrings.

(** *** normalizeIp *)

Section NormalizeFacts.

Local Open Scope string_scope.

Lemma firstHop_list (a b : string) :
  Js.includes a "," = false -> firstHop (a ++ "," ++ b) = Js.trim a.
Proof.
  intros Ha. unfold firstHop.
  assert (H : Js.includes (a ++ "," ++ b) "," = true)
    by (apply includes_spec; now exists a, b).
  now rewrite H, (split_unit_first _ a b Ha).
Qed.

Lemma firstHop_Substring (ip : string) : Substring (firstHop ip) ip.
Proof.
  destruct (Js.includes ip ",") eqn:H.
  - destruct (first_occurrence _ _ H) as [a [b [-> Ha]]].
    rewrite (firstHop_list a b Ha).
    exact (Substring_trans _ _ _ (trim_Substring a) (Substring_prefix a _)).
  - unfold firstHop. rewrite H. exists "", "". now rewrite append_empty.
Qed.

Lemma firstHop_no_comma (ip : string) :
  Js.includes (firstHop ip) "," = false.
Proof.
  destruct (Js.includes ip ",") eqn:H.
  - destruct (first_occurrence _ _ H) as [a [b [-> Ha]]].
    rewrite (firstHop_list a b Ha).
    exact (includes_part _ _ _ (trim_Substring a) Ha).
  - unfold firstHop. now rewrite H.
Qed.

(** What the prefix statement leaves: the string itself, or what stands
    between the leading prefix and its next occurrence. *)
Lemma unmapped_cases (ip : string) :
  (Js.startsWith ip "::ffff:" = false /\ unmapped ip = ip)
  \/ exists r rest,
       ip = "::ffff:" ++ r /\ r = unmapped ip ++ rest
       /\ Js.includes (unmapped ip) "::ffff:" = false.
Proof.
  unfold unmapped. destruct (Js.startsWith ip "::ffff:") eqn:H.
  - right. apply startsWith_spec in H as [r ->].
    destruct (split_head ":" ":ffff:" r) as [h [t [rest [E [Er Hh]]]]].
    exists r, rest. rewrite (split_prefix ":" ":ffff:" r), E.
    repeat split; assumption.
  - now left.
Qed.

Lemma unmapped_Substring (ip : string) : Substring (unmapped ip) ip.
Proof.
  destruct (unmapped_cases ip) as [[_ ->] | [r [rest [E [Er _]]]]].
  - exists "", "". now rewrite append_empty.
  - apply (Substring_trans _ r).
    + exists "", rest. exact Er.
    + rewrite E. apply Substring_suffix.
Qed.

Lemma unmapped_no_prefix (ip : string) :
  Js.startsWith (unmapped ip) "::ffff:" = false.
Proof.
  destruct (unmapped_cases ip) as [[H ->] | [r [rest [_ [_ H]]]]].
  - exact H.
  - now apply startsWith_includes.
Qed.

Lemma normalizeIp_some (raw ip : string) :
  normalizeIp raw = Some ip ->
  ip = unmapped (firstHop raw)
  /\ (ip =? "::1") = false /\ (ip =? "127.0.0.1") = false.
Proof.
  unfold normalizeIp. destruct (raw =? ""); [discriminate|]. cbv zeta.
  destruct (unmapped (firstHop raw) =? "::1") eqn:H1;
    [discriminate|].
  destruct (unmapped (firstHop raw) =? "127.0.0.1") eqn:H2;
    [discriminate|].
  simpl. intros H. injection H as <-. now rewrite H1, H2.
Qed.

Lemma normalizeIp_shape (raw ip : string) :
  normalizeIp raw = Some ip ->
  Substring ip raw
  /\ Js.includes ip "," = false
  /\ Js.startsWith ip "::ffff:" = false
  /\ (ip =? "::1") = false /\ (ip =? "127.0.0.1") = false.
Proof.
  intros H. destruct (normalizeIp_some raw ip H) as [-> [H1 H2]].
  repeat split; trivial.
  - exact (Substring_trans _ _ _ (unmapped_Substring _)
             (firstHop_Substring raw)).
  - exact (includes_part _ _ _ (unmapped_Substring _)
             (firstHop_no_comma raw)).
  - apply unmapped_no_prefix.
Qed.

(** On a non-empty address without comma, prefix and loopback form,
    [normalizeIp] changes nothing. *)
Lemma normalizeIp_fixed (ip : string) :
  ip <> "" ->
  Js.includes ip "," = false ->
  Js.startsWith ip "::ffff:" = false ->
  (ip =? "::1") = false -> (ip =? "127.0.0.1") = false ->
  normalizeIp ip = Some ip.
Proof.
  intros Hne Hc Hp H1 H2. apply String.eqb_neq in Hne.
  unfold normalizeIp, firstHop, unmapped.
  now rewrite Hne, Hc, Hp, H1, H2.
Qed.

Lemma normalizeIp_list (a b : string) :
  Js.includes a "," = false ->
  normalizeIp (a ++ "," ++ b) = afterFirstHop (Js.trim a).
Proof.
  intros Ha. unfold normalizeIp, afterFirstHop.
  replace (a ++ "," ++ b =? "") with false
    by (symmetry; apply String.eqb_neq; now destruct a).
  cbv zeta. now rewrite (firstHop_list a b Ha).
Qed.

Lemma allWhite_no_comma (a : string) :
  allWhite a = true -> Js.includes a "," = false.
Proof.
  induction a as [|c a IH]; simpl allWhite; intros H; [reflexivity|].
  apply andb_true_iff in H as [Hc Ha]. cbn [Js.includes].
  rewrite startsWith_unit, (IH Ha), orb_false_r.
  apply Ascii.eqb_neq. intros <-. discriminate Hc.
Qed.

Lemma allWhite_trim (a : string) : allWhite a = true -> Js.trim a = "".
Proof.
  intros H. unfold Js.trim.
  assert (E : Js.trimEnd a = "") by exact (trimEnd_append_white "" a H).
  now rewrite E.
Qed.

End NormalizeFacts.

(** X1. What [normalizeIp] returns is a contiguous part of its input and
    holds no comma: of a forwarded list at most one entry is left. *)
Theorem normalizeIp_single_entry (raw ip : string) :
  normalizeIp raw = Some ip ->
  Substring ip raw /\ Js.includes ip "," = false.
Proof.
  intros H. destruct (normalizeIp_shape raw ip H) as [H1 [H2 _]].
  now split.
Qed.

Lemma normalizeIp_single_entry_witness :
  Substring "10.0.0.1" "::ffff:10.0.0.1 , 10.0.0.2"
  /\ Js.includes "10.0.0.1" "," = false.
Proof.
  apply (normalizeIp_single_entry "::ffff:10.0.0.1 , 10.0.0.2" "10.0.0.1").
  reflexivity.
Defined.

(** X2. [normalizeIp] never returns a loopback literal and never an address
    that still starts with the IPv4-mapped prefix, also when the input
    holds the prefix several times. *)
Theorem normalizeIp_never_mapped_or_loopback (raw ip : string) :
  normalizeIp raw = Some ip ->
  ip <> "127.0.0.1" /\ ip <> "::1" /\ Js.startsWith ip "::ffff:" = false.
Proof.
  intros H. destruct (normalizeIp_shape raw ip H) as [_ [_ [Hp [H1 H2]]]].
  repeat split; trivial; now apply String.eqb_neq.
Qed.

Lemma normalizeIp_never_mapped_or_loopback_witness :
  "1.1.1.1" <> "127.0.0.1" /\ "1.1.1.1" <> "::1"
  /\ Js.startsWith "1.1.1.1" "::ffff:" = false.
Proof.
  apply (normalizeIp_never_mapped_or_loopback
           "::ffff:1.1.1.1::ffff:127.0.0.1" "1.1.1.1").
  reflexivity.
Defined.

(** X3. [normalizeIp] is idempotent: a non-empty address it returns is
    returned unchanged when it is normalized again. *)
Theorem normalizeIp_idempotent (raw ip : string) :
  normalizeIp raw = Some ip ->
  ip <> "" ->
  normalizeIp ip = Some ip.
Proof.
  intros H Hne.
  destruct (normalizeIp_shape raw ip H) as [_ [Hc [Hp [H1 H2]]]].
  now apply normalizeIp_fixed.
Qed.

Lemma normalizeIp_idempotent_witness :
  normalizeIp "203.0.113.7" = Some "203.0.113.7".
Proof.
  apply (normalizeIp_idempotent "::ffff:203.0.113.7, 10.0.0.1" "203.0.113.7");
    [reflexivity | discriminate].
Defined.

(** X4. A forwarded list is normalized like its first entry alone, trimmed:
    what follows the first comma has no influence.  When the first entry is
    blank the result is the empty string, not [null]. *)
Theorem normalizeIp_first_entry (a b : string) :
  Js.includes a "," = false ->
  normalizeIp (a ++ "," ++ b)
  = if Js.trim a =? "" then Some "" else normalizeIp (Js.trim a).
Proof.
  intros Ha.
  rewrite (normalizeIp_list a b Ha). destruct (Js.trim a =? "")%string eqn:E.
  - apply String.eqb_eq in E. now rewrite E.
  - unfold normalizeIp, afterFirstHop. rewrite E. cbv zeta.
    assert (Hf : firstHop (Js.trim a) = Js.trim a).
    { unfold firstHop.
      now rewrite (includes_part _ _ _ (trim_Substring a) Ha). }
    now rewrite Hf.
Qed.

Lemma normalizeIp_first_entry_witness :
  normalizeIp (" 198.51.100.4 " ++ "," ++ "::1, 10.0.0.1")
  = normalizeIp "198.51.100.4".
Proof.
  apply (normalizeIp_first_entry " 198.51.100.4 " "::1, 10.0.0.1").
  reflexivity.
Defined.

(** *** The handler *)

Lemma scan_cases (req : Request) (st : ServerState) :
  (lookup st = None
   /\ scan req st
      = {| result := Normal DatabaseError; final := st; queried := [] |})
  \/ (exists e,
        lookup st <> None /\ ipToUse req = Throw e
        /\ scan req st
           = {| result := Throw e; final := st; queried := [] |})
  \/ (exists v,
        lookup st <> None /\ ipToUse req = Normal v /\ Js.truthy v = false
        /\ scan req st
           = {| result := Normal Localhost; final := st; queried := [] |})
  \/ (exists reader ip,
        lookup st = Some reader /\ ipToUse req = Normal (Some ip) /\ ip <> ""
        /\ scan req st
           = {| result := Normal (if isVPN (caught (get reader ip))
                                  then VpnUser else RealUser);
                final := st; queried := [ip] |}).
Proof. exact (scanWith_cases vpnKeywords req st). Qed.

(** X5. A run of the handler leaves the server state as it was, and only an
    error thrown by the conversion of the query parameter escapes it, before
    any lookup; an error of the lookup never does.  The database is asked
    exactly when the answer is RealUser or VpnUser, then once and for the
    non-empty address [ipToUse]; with DatabaseError and Localhost it is not
    asked. *)
Theorem scan_asks_once (req : Request) (st : ServerState) :
  final (scan req st) = st
  /\ match result (scan req st) with
     | Normal DatabaseError | Normal Localhost => queried (scan req st) = []
     | Normal RealUser | Normal VpnUser =>
         exists ip, queried (scan req st) = [ip]
                    /\ ip <> "" /\ ipToUse req = Normal (Some ip)
     | Throw e =>
         queried (scan req st) = []
         /\ lookup st <> None
         /\ exists q, query_ip req = Some q /\ queryString q = Throw e
     end.
Proof.
  destruct (scan_cases req st)
    as [[_ H] | [[e [Hn [He H]]] | [[v [_ [_ [_ H]]]]
                                   | [reader [ip [_ [Hip [Hne H]]]]]]]];
    rewrite H; cbn [result final queried]; (split; [reflexivity|]).
  - reflexivity.
  - split; [reflexivity | split; [exact Hn|]].
    apply ipToUse_throws in He. unfold ipParam in He.
    destruct (query_ip req) as [q|]; [|discriminate He].
    exists q. split; [reflexivity|].
    destruct (queryTruthy q); [|discriminate He].
    destruct (queryString q) as [s|e']; [discriminate He|].
    cbn [andThen] in He. now injection He as ->.
  - reflexivity.
  - destruct (isVPN (caught (get reader ip)));
      exists ip; (split; [reflexivity | split; assumption]).
Qed.

(** X6. Without a usable query parameter, the address passed to the
    database is a normalized one: not empty, without comma, not a loopback
    literal and not starting with the IPv4-mapped prefix. *)
Theorem scan_asks_normalized
  (req : Request) (st : ServerState) (ipParam0 : Js.value) (ip : string) :
  ipParam req = Normal ipParam0 ->
  Js.truthy ipParam0 = false ->
  In ip (queried (scan req st)) ->
  ip <> ""
  /\ Js.includes ip "," = false
  /\ ip <> "127.0.0.1" /\ ip <> "::1"
  /\ Js.startsWith ip "::ffff:" = false.
Proof.
  intros Hp Hq Hin.
  destruct (scan_cases req st)
    as [[_ H] | [[e [_ [_ H]]] | [[v [_ [_ [_ H]]]]
                                  | [reader [ip' [_ [Hip [Hne H]]]]]]]];
    rewrite H in Hin; cbn [queried] in Hin; try contradiction.
  destruct Hin as [<- | []].
  rewrite (ipToUse_without_param req ipParam0 Hp Hq) in Hip.
  injection Hip as Hip.
  destruct (normalizeIp_shape _ _ Hip) as [_ [Hc [Hpre [H1 H2]]]].
  repeat split; trivial; now apply String.eqb_neq.
Qed.

Lemma scan_asks_normalized_witness :
  "8.8.8.8" <> ""
  /\ Js.includes "8.8.8.8" "," = false
  /\ "8.8.8.8" <> "127.0.0.1" /\ "8.8.8.8" <> "::1"
  /\ Js.startsWith "8.8.8.8" "::ffff:" = false.
Proof.
  apply (scan_asks_normalized (viaHeader "::ffff:8.8.8.8, 10.0.0.1") loaded
           None "8.8.8.8");
    [reflexivity | reflexivity | left; reflexivity].
Defined.

(** X7. A non-empty forwarded-for header hides the socket address: the run
    is the same from whatever peer the request arrives. *)
Theorem scan_header_over_socket
  (req : Request) (st : ServerState) (addr : Js.value) :
  Js.truthy (x_forwarded_for req) = true ->
  scan (withSocket req addr) st = scan req st.
Proof.
  intros H. apply scanWith_ipToUse.
  assert (E : forall sock,
             Js.or (Js.or (x_forwarded_for req) None) sock
             = x_forwarded_for req).
  { intros sock. unfold Js.or. rewrite H. now rewrite H. }
  unfold ipToUse.
  change (ipParam (withSocket req addr)) with (ipParam req).
  destruct (ipParam req) as [p|e]; [|reflexivity]. cbn [andThen].
  unfold remoteHeader, socketAddr, withSocket.
  cbn [x_forwarded_for remoteAddress]. now rewrite !E.
Qed.

Lemma scan_header_over_socket_witness :
  scan (withSocket (viaHeader "185.159.157.1") (Some "8.8.8.8")) loaded
  = scan (viaHeader "185.159.157.1") loaded.
Proof.
  apply (scan_header_over_socket (viaHeader "185.159.157.1") loaded
           (Some "8.8.8.8")).
  reflexivity.
Defined.

(** X8. A query parameter [ip] whose string form is empty after trimming is
    ignored: the run is the one of the same request without the
    parameter. *)
Theorem scan_blank_query_ignored
  (req : Request) (st : ServerState) (q : QueryValue) (s : string) :
  query_ip req = Some q ->
  queryString q = Normal s ->
  Js.trim s = "" ->
  scan req st = scan (withoutQuery req) st.
Proof.
  intros Hq Hs Ht. apply scanWith_ipToUse.
  assert (Hp : exists p, ipParam req = Normal p /\ Js.truthy p = false).
  { unfold ipParam. rewrite Hq, Hs. cbn [andThen]. rewrite Ht.
    destruct (queryTruthy q); eexists; split; reflexivity. }
  destruct Hp as [p [Hp Hf]].
  rewrite (ipToUse_without_param req p Hp Hf).
  now rewrite (ipToUse_without_param (withoutQuery req) None eq_refl eq_refl).
Qed.

Lemma scan_blank_query_ignored_witness :
  scan {| query_ip := Some (QArray [QString "  "]);
          x_forwarded_for := Some "8.8.8.8";
          remoteAddress := None |} loaded
  = scan (viaHeader "8.8.8.8") loaded.
Proof.
  rewrite (scan_blank_query_ignored
             {| query_ip := Some (QArray [QString "  "]);
                x_forwarded_for := Some "8.8.8.8";
                remoteAddress := None |} loaded (QArray [QString "  "])
             "  ");
    reflexivity.
Defined.

(** X9. With the database loaded and no usable query parameter, a
    forwarded-for header whose first entry is blank gives Localhost,
    whatever follows the first comma and whatever the socket address is;
    the database is not asked. *)
Theorem scan_blank_first_entry
  (req : Request) (st : ServerState) (reader : Reader)
  (ipParam0 : Js.value) (a b : string) :
  lookup st = Some reader ->
  ipParam req = Normal ipParam0 ->
  Js.truthy ipParam0 = false ->
  x_forwarded_for req = Some (a ++ "," ++ b)%string ->
  allWhite a = true ->
  scan req st = {| result := Normal Localhost; final := st; queried := [] |}.
Proof.
  intros Hst Hp Hq Hh Ha.
  apply (scanWith_localhost _ _ _ reader (Some "") Hst); [|reflexivity].
  rewrite (ipToUse_without_param req ipParam0 Hp Hq).
  assert (Hne : (a ++ "," ++ b =? "")%string = false)
    by (apply String.eqb_neq; now destruct a).
  assert (Hraw : Js.orString (Js.or (remoteHeader req) (socketAddr req)) ""
                 = (a ++ "," ++ b)%string).
  { unfold remoteHeader. rewrite Hh. unfold Js.or. cbn [Js.truthy].
    rewrite Hne. cbn [negb Js.truthy]. rewrite Hne.
    cbn [negb Js.orString]. now rewrite Hne. }
  rewrite Hraw, (normalizeIp_list a b (allWhite_no_comma a Ha)).
  now rewrite (allWhite_trim a Ha).
Qed.

Lemma scan_blank_first_entry_witness :
  scan (viaHeader " , 185.159.157.1") loaded
  = {| result := Normal Localhost; final := loaded; queried := [] |}.
Proof.
  apply (scan_blank_first_entry (viaHeader " , 185.159.157.1") loaded
           sampleReader None " " " 185.159.157.1");
    reflexivity.
Defined.

Lemma scan_database_error_iff (req : Request) (st : ServerState) :
  result (scan req st) = Normal DatabaseError <-> lookup st = None.
Proof.
  destruct (scan_cases req st)
    as [[Hn H] | [[e [Hn [_ H]]] | [[v [Hn [_ [_ H]]]]
                                   | [reader [ip [Hst [_ [_ H]]]]]]]];
    rewrite H; cbn [result].
  - now split.
  - split; [discriminate | intros E; now elim Hn].
  - split; [discriminate | intros E; now elim Hn].
  - rewrite Hst. split; [|discriminate].
    destruct (isVPN (caught (get reader ip))); discriminate.
Qed.

(** After a failed open a sequence of requests gets DatabaseError
    throughout: the conversion of the query parameter is not reached. *)
Lemma serve_no_database (reqs : list Request) (st : ServerState) :
  lookup st = None ->
  serve reqs st
  = {| result := Normal (repeat DatabaseError (length reqs));
       final := st; queried := [] |}.
Proof.
  intros Hn. induction reqs as [|req rest IH]; [reflexivity|].
  change (serve (req :: rest))
    with (v <- scan req ;; vs <- serve rest ;; ret (v :: vs)).
  assert (Hs : scan req st
               = {| result := Normal DatabaseError; final := st;
                    queried := [] |})
    by exact (scanWith_no_database vpnKeywords st req Hn).
  rewrite (bind_normal _ _ _ _ _ _ Hs). cbn [result final queried].
  rewrite (bind_normal _ _ _ _ _ _ IH). reflexivity.
Qed.

(** X10. The outcome of opening the database decides DatabaseError once
    and for all: a request is answered DatabaseError exactly when [lookup]
    is [null]; after a failed open every request of every sequence gets
    DatabaseError, after a successful open no request is answered
    DatabaseError, alone or in a sequence. *)
Theorem open_decides_database_error
  (req : Request) (st : ServerState) (reqs : list Request)
  (e : JsError) (l : Reader) :
  (result (scan req st) = Normal DatabaseError <-> lookup st = None)
  /\ result (serve reqs (opened (Throw e) initialState))
     = Normal (repeat DatabaseError (length reqs))
  /\ result (scan req (opened (Normal l) st)) <> Normal DatabaseError
  /\ forall vs,
       result (serve reqs (opened (Normal l) st)) = Normal vs ->
       ~ In DatabaseError vs.
Proof.
  split; [apply scan_database_error_iff | split; [|split]].
  - now rewrite (serve_no_database reqs (opened (Throw e) initialState)
                   eq_refl).
  - intros H. apply scan_database_error_iff in H. discriminate H.
  - assert (Hst' : lookup (opened (Normal l) st) = Some l) by reflexivity.
    revert Hst'. generalize (opened (Normal l) st). intros st' Hst'. induction reqs as [|r rest IH]; intros vs Hvs.
    + injection Hvs as <-. intros [].
    + change (serve (r :: rest))
        with (v <- scan r ;; vs <- serve rest ;; ret (v :: vs)) in Hvs.
      unfold bind at 1 in Hvs.
      assert (Hf := scan_final r st').
      destruct (scan r st') as [[v|e'] fin q] eqn:Hs;
        cbn [result final] in Hvs, Hf; [|discriminate Hvs].
      subst fin. unfold bind in Hvs.
      destruct (serve rest st') as [[vs'|e'] fin' q'] eqn:Hrest;
        cbn [result final ret] in Hvs; [|discriminate Hvs].
      injection Hvs as <-. intros [Hd | Hin].
      * assert (Hv : result (scan r st') = Normal DatabaseError)
          by (rewrite Hs; cbn [result]; now rewrite Hd).
        apply scan_database_error_iff in Hv. congruence.
      * now apply (IH vs').
Qed.

Lemma open_decides_database_error_witness :
  ~ In DatabaseError [RealUser; VpnUser].
Proof.
  destruct (open_decides_database_error (viaQuery "8.8.8.8") initialState
              [viaQuery "8.8.8.8"; viaQuery "185.159.157.1"]
              (Exception "no such file") sampleReader)
    as [_ [_ [_ H]]].
  apply H. reflexivity.
Defined.

Lemma orString_some (m : string) : Js.orString (Some m) "" = m.
Proof.
  unfold Js.orString. destruct (m =? "") eqn:E; [|reflexivity].
  apply String.eqb_eq in E. now rewrite E.
Qed.

(** X11. The keyword test is monotone in the organization name and blind
    to the AS number: when a name is flagged, every name that contains it
    is flagged, under any AS number. *)
Theorem isVPN_monotone (n n' : option N) (a m b : string) :
  isVPN (Some {| autonomous_system_number := n;
                 autonomous_system_organization := Some m |}) = true ->
  isVPN (Some {| autonomous_system_number := n';
                 autonomous_system_organization :=
                   Some (a ++ m ++ b)%string |})
  = true.
Proof.
  rewrite !isVPN_spec.
  cbn [autonomous_system_organization]. rewrite !orString_some.
  intros [k [Hk H]]. exists k. split; [exact Hk|].
  apply (Substring_trans _ _ _ H).
  exists (Js.toLowerCase a), (Js.toLowerCase b).
  now rewrite !toLowerCase_append.
Qed.

Lemma isVPN_monotone_witness :
  isVPN (Some {| autonomous_system_number := None;
                 autonomous_system_organization :=
                   Some ("Sky" ++ "Cloud" ++ "berry Farms")%string |})
  = true.
Proof.
  apply (isVPN_monotone (Some 13335%N) None "Sky" "Cloud" "berry Farms").
  reflexivity.
Defined.

(** A list whose keywords all contain a keyword of another list flags no
    more names than that list. *)
Lemma covered_flags (l1 l2 : list string) (org : string) :
  covered l1 l2 = true ->
  existsb (fun keyword => Js.includes org keyword) l1 = true ->
  existsb (fun keyword => Js.includes org keyword) l2 = true.
Proof.
  unfold covered. rewrite forallb_forall, !existsb_exists.
  intros Hc [k1 [Hk1 H1]].
  destruct (proj1 (existsb_exists _ _) (Hc k1 Hk1)) as [k2 [Hk2 H2]].
  exists k2. split; [exact Hk2|].
  apply includes_spec. apply includes_spec in H1, H2.
  exact (Substring_trans _ _ _ H2 H1).
Qed.

Lemma covered_isVPNWith (l1 l2 : list string) (a : option AsnResponse) :
  covered l1 l2 = true -> covered l2 l1 = true ->
  isVPNWith l1 a = isVPNWith l2 a.
Proof.
  intros H12 H21. destruct a as [info|]; [|reflexivity].
  unfold isVPNWith.
  set (org := Js.toLowerCase
                (Js.orString (autonomous_system_organization info) "")).
  destruct (existsb (fun k => Js.includes org k) l1) eqn:E1.
  - symmetry. exact (covered_flags l1 l2 org H12 E1).
  - destruct (existsb (fun k => Js.includes org k) l2) eqn:E2;
      [|reflexivity].
    rewrite (covered_flags l2 l1 org H21 E2) in E1. discriminate E1.
Qed.

(** X12. Five keywords of the list are redundant: "expressvpn", "nordvpn",
    "vyprvpn" and "protonvpn" contain "vpn", and "google cloud" contains
    "cloud".  Without them [isVPN] returns the same boolean on every record
    and the handler makes the same run on every request. *)
Theorem redundant_keywords :
  (forall asnInfo, isVPNWith coreKeywords asnInfo = isVPN asnInfo)
  /\ (forall req st, scanWith coreKeywords req st = scan req st).
Proof.
  assert (H : forall a, isVPNWith coreKeywords a = isVPNWith vpnKeywords a)
    by (intros a; apply covered_isVPNWith; reflexivity).
  split; [exact H|].
  intros req st. now apply scanWith_ext.
Qed.

(** X13. With the database loaded and no usable query parameter, the answer
    is Localhost exactly when the raw address (header, else socket, else
    the empty string) is empty or comes down, by the comma and prefix
    statements, to the empty string or to a loopback literal. *)
Theorem scan_localhost_iff
  (req : Request) (st : ServerState) (reader : Reader)
  (ipParam0 : Js.value) (raw : string) :
  lookup st = Some reader ->
  ipParam req = Normal ipParam0 ->
  Js.truthy ipParam0 = false ->
  Js.orString (Js.or (remoteHeader req) (socketAddr req)) "" = raw ->
  (result (scan req st) = Normal Localhost
   <-> raw = ""
       \/ unmapped (firstHop raw) = ""
       \/ unmapped (firstHop raw) = "127.0.0.1"
       \/ unmapped (firstHop raw) = "::1").
Proof.
  intros Hst Hp Hq Hraw.
  assert (Hip : ipToUse req = Normal (normalizeIp raw))
    by (now rewrite (ipToUse_without_param req ipParam0 Hp Hq), Hraw).
  assert (Hloc : result (scan req st) = Normal Localhost
                 <-> Js.truthy (normalizeIp raw) = false).
  { destruct (scan_cases req st)
      as [[Hn _] | [[e [_ [He _]]] | [[v [_ [Hv [Ht H]]]]
                                     | [rd [ip [_ [Hi [Hne H]]]]]]]].
    - congruence.
    - congruence.
    - rewrite H. rewrite Hip in Hv. injection Hv as <-. now split.
    - rewrite H. rewrite Hip in Hi. injection Hi as ->.
      cbn [result Js.truthy].
      apply String.eqb_neq in Hne. rewrite Hne.
      split; [|discriminate].
      destruct (isVPN (caught (get rd ip))); discriminate. }
  rewrite Hloc. unfold normalizeIp.
  destruct (raw =? "") eqn:E0.
  - apply String.eqb_eq in E0. split; [now left | reflexivity].
  - apply String.eqb_neq in E0. cbv zeta.
    destruct (unmapped (firstHop raw) =? "::1") eqn:E1.
    + apply String.eqb_eq in E1. cbn [orb].
      split; [now right; right; right | reflexivity].
    + destruct (unmapped (firstHop raw) =? "127.0.0.1") eqn:E2.
      * apply String.eqb_eq in E2. cbn [orb].
        split; [now right; right; left | reflexivity].
      * cbn [orb Js.truthy]. rewrite negb_false_iff, String.eqb_eq.
        apply String.eqb_neq in E1, E2.
        split; [now right; left | intros [H | [H | [H | H]]]; congruence].
Qed.

Lemma scan_localhost_iff_witness :
  result (scan (viaHeader "::ffff:") loaded) = Normal Localhost
  <-> "::ffff:" = ""
      \/ unmapped (firstHop "::ffff:") = ""
      \/ unmapped (firstHop "::ffff:") = "127.0.0.1"
      \/ unmapped (firstHop "::ffff:") = "::1".
Proof.
  apply (scan_localhost_iff (viaHeader "::ffff:") loaded sampleReader
           None "::ffff:");
    reflexivity.
Defined.
